(** * cancel-case-42.py: the maintenance script that cancels the portal
      submission of case 42

    The script is a straight line of driver calls inside one [try] block
    with one blanket [except Exception] handler.  It is embedded here as
    a computation in a monad that threads the state of the world (the
    database, the open transaction, the cursor and everything the
    process did, in order) and keeps that state when an exception is
    raised, the way Python keeps what was already printed and PostgreSQL
    keeps what was already committed. *)

From Stdlib Require Import ZArith List String Ascii DecimalString Bool Lia.
Import ListNotations.
Open Scope Z_scope.

(** ** Python values *)

(** A Python [str] is a sequence of Unicode code points. *)
Definition pystr := list N.

(** A string literal of the source (all of them are ASCII). *)
Definition lit (s : string) : pystr := map N_of_ascii (list_ascii_of_string s).

(** The values that travel between the driver and the script: SQL NULL
    is [None], an integer column is an [int], a text column a [str]. *)
Inductive value :=
| PNone
| PInt (z : Z)
| PStr (s : pystr).

(** The exceptions that can be raised inside the [try] block: Python's
    own [TypeError] and [IndexError], and the driver's [psycopg2.Error].
    All are subclasses of [Exception]. *)
Inductive exn :=
| TypeError (msg : pystr)
| IndexError (msg : pystr)
| DatabaseError (msg : pystr).

(** [str(e)], what [{e}] puts in an f-string. *)
Definition str_exn (e : exn) : pystr :=
  match e with
  | TypeError msg => msg
  | IndexError msg => msg
  | DatabaseError msg => msg
  end.

(** [str(n)] for an [int]. *)
Definition str_int (z : Z) : pystr := lit (NilZero.string_of_int (Z.to_int z)).

(** [format(v, '')], what [{v}] puts in an f-string. *)
Definition str (v : value) : pystr :=
  match v with
  | PNone => lit "None"
  | PInt z => str_int z
  | PStr s => s
  end.

Fixpoint starts_with (p s : pystr) : bool :=
  match p, s with
  | [], _ => true
  | _ :: _, [] => false
  | a :: p', b :: s' => N.eqb a b && starts_with p' s'
  end.

(** ** The database *)

(** A row of [cases].  The columns the script names are fields; every
    other column of the table is kept in [other_columns]. *)
Record case_row := {
  id : Z;
  case_name : option pystr;
  status : option pystr;
  portal_url : option pystr;
  last_portal_status : option pystr;
  other_columns : list (string * value)
}.

(** A row of [activity_log], with the four columns of the INSERT. *)
Record log_row := {
  case_id : Z;
  event_type : pystr;
  description : pystr;
  created_at : Z
}.

Record database := {
  cases : list case_row;
  activity_log : list log_row
}.

(** A nullable text column as the driver hands it to Python. *)
Definition text_value (c : option pystr) : value :=
  match c with
  | None => PNone
  | Some s => PStr s
  end.

(** [SET status = %s, portal_url = NULL, last_portal_status = %s] *)
Definition set_columns (params : pystr * pystr) (r : case_row) : case_row :=
  {| id := id r;
     case_name := case_name r;
     status := Some (fst params);
     portal_url := None;
     last_portal_status := Some (snd params);
     other_columns := other_columns r |}.

(** [WHERE id = 42] *)
Definition where_id_42 (r : case_row) : bool := id r =? 42.

(** [UPDATE cases SET ... WHERE id = 42]: the table after the statement. *)
Definition update_cases (params : pystr * pystr) (t : list case_row)
  : list case_row :=
  map (fun r => if where_id_42 r then set_columns params r else r) t.

(** [RETURNING id, case_name, status]: one tuple per updated row, with
    the values the row has after the update. *)
Definition returning (params : pystr * pystr) (t : list case_row)
  : list (value * value * value) :=
  map (fun r => (PInt (id r), text_value (case_name r), text_value (status r)))
      (map (set_columns params) (filter where_id_42 t)).

(** [INSERT INTO activity_log (case_id, event_type, description,
    created_at) VALUES (%s, %s, %s, %s)] *)
Definition insert_activity_log (params : Z * pystr * pystr * Z)
  (t : list log_row) : list log_row :=
  let '(c, e, d, ts) := params in
  t ++ [{| case_id := c; event_type := e; description := d; created_at := ts |}].

(** ** The world *)

(** The calls the script makes to the driver. *)
Inductive call :=
| Connect
| Cursor
| ExecuteUpdate
| FetchOne
| ExecuteInsert
| Commit
| CursorClose
| ConnClose.

(** What the process did, for the record: a call made to the driver
    (recorded when the call is made, whether or not it then raises) or a
    line handed to [print]. *)
Inductive event :=
| Called (c : call)
| Printed (line : pystr).

Record world := {
  committed : database;          (* what the database durably holds *)
  pending : option database;     (* what the open connection's transaction sees *)
  result_set : list (value * value * value);   (* rows waiting in the cursor *)
  trace : list event             (* oldest first *)
}.

(** What the script receives from outside: the environment variable, the
    clock, and what the driver answers.  Every driver call is made at
    most once in a run, so one optional error per call says all the
    driver can do. *)
Record environment := {
  DATABASE_URL : option pystr;
  now : Z;
  fault : call -> option pystr;
  missing_dsn : pystr
}.

(** ** The monad: state that survives exceptions *)

Definition M (A : Type) : Type := world -> (exn + A) * world.

Definition ret {A} (a : A) : M A := fun w => (inr a, w).

Definition bind {A B} (c : M A) (k : A -> M B) : M B :=
  fun w =>
    match c w with
    | (inl e, w') => (inl e, w')
    | (inr a, w') => k a w'
    end.

Definition raise {A} (e : exn) : M A := fun w => (inl e, w).

(** [try: body  except Exception as e: handler e] *)
Definition try_except (body : M unit) (handler : exn -> M unit) : M unit :=
  fun w =>
    match body w with
    | (inl e, w') => handler e w'
    | (inr a, w') => (inr a, w')
    end.

Declare Scope py_scope.
Delimit Scope py_scope with py.
Notation "x <- c ;; k" := (bind c (fun x => k))
  (at level 100, c at next level, right associativity) : py_scope.
Notation "c ;;; k" := (bind c (fun _ => k))
  (at level 100, right associativity) : py_scope.
Open Scope py_scope.

Definition record (e : event) : M unit :=
  fun w => (inr tt, {| committed := committed w; pending := pending w;
                       result_set := result_set w;
                       trace := trace w ++ [e] |}).

(** A driver call: it is recorded, then it raises if the driver says so. *)
Definition driver_call (env : environment) (c : call) : M unit :=
  record (Called c) ;;;
  match fault env c with
  | Some msg => raise (DatabaseError msg)
  | None => ret tt
  end.

Definition get_pending : M database :=
  fun w =>
    match pending w with
    | Some d => (inr d, w)
    | None => (inl (DatabaseError (lit "connection already closed")), w)
    end.

Definition set_pending (p : option database) : M unit :=
  fun w => (inr tt, {| committed := committed w; pending := p;
                       result_set := result_set w; trace := trace w |}).

Definition set_result_set (rs : list (value * value * value)) : M unit :=
  fun w => (inr tt, {| committed := committed w; pending := pending w;
                       result_set := rs; trace := trace w |}).

(** ** The operations of the script *)

(** Modelled from the spec: psycopg2 is not part of the repository.  The
    script hands the value of [os.getenv] to [psycopg2.connect] without
    looking at it; the spec (External interfaces) says that an absent
    value surfaces as a connection-layer error, so [None] raises here,
    with the message [missing_dsn] of the environment.  A present value
    connects unless the driver refuses it.  The new connection's
    transaction starts from the committed database. *)
Definition psycopg2_connect (env : environment) (dsn : option pystr) : M unit :=
  record (Called Connect) ;;;
  match dsn with
  | None => raise (TypeError (missing_dsn env))
  | Some _ =>
      match fault env Connect with
      | Some msg => raise (DatabaseError msg)
      | None => fun w => set_pending (Some (committed w)) w
      end
  end.

(** [conn.cursor()] *)
Definition conn_cursor (env : environment) : M unit :=
  driver_call env Cursor.

(** [cur.execute("UPDATE cases ... RETURNING ...", params)] *)
Definition cur_execute_update (env : environment) (params : pystr * pystr)
  : M unit :=
  driver_call env ExecuteUpdate ;;;
  d <- get_pending ;;
  set_pending (Some {| cases := update_cases params (cases d);
                       activity_log := activity_log d |}) ;;;
  set_result_set (returning params (cases d)).

(** [cur.fetchone()]: the next row of the result set, [None] when there
    is none. *)
Definition cur_fetchone (env : environment)
  : M (option (value * value * value)) :=
  driver_call env FetchOne ;;;
  fun w =>
    match result_set w with
    | [] => (inr None, w)
    | r :: rs => bind (set_result_set rs) (fun _ => ret (Some r)) w
    end.

(** [cur.execute("INSERT INTO activity_log ...", params)] *)
Definition cur_execute_insert (env : environment) (params : Z * pystr * pystr * Z)
  : M unit :=
  driver_call env ExecuteInsert ;;;
  d <- get_pending ;;
  set_pending (Some {| cases := cases d;
                       activity_log := insert_activity_log params (activity_log d) |}) ;;;
  set_result_set [].

(** [conn.commit()]: what the transaction sees becomes what the database
    holds.  A commit that raises has committed nothing. *)
Definition conn_commit (env : environment) : M unit :=
  driver_call env Commit ;;;
  d <- get_pending ;;
  fun w => (inr tt, {| committed := d; pending := pending w;
                       result_set := result_set w; trace := trace w |}).

(** [cur.close()] *)
Definition cur_close (env : environment) : M unit :=
  driver_call env CursorClose ;;;
  set_result_set [].

(** [conn.close()]: whatever was not committed is gone. *)
Definition conn_close (env : environment) : M unit :=
  driver_call env ConnClose ;;;
  set_pending None.

(** [print(line)]: the line is appended to standard output; writing to
    standard output is taken to succeed. *)
Definition print (line : pystr) : M unit := record (Printed line).

(** [datetime.now()] *)
Definition datetime_now (env : environment) : M Z := ret (now env).

Definition not_subscriptable (type_name : string) : exn :=
  TypeError (lit "'" ++ lit type_name ++ lit "' object is not subscriptable").

(** [result[i]] where [result] is what [fetchone] returned. *)
Definition getitem (result : option (value * value * value)) (i : nat)
  : M value :=
  match result with
  | None => raise (not_subscriptable "NoneType")
  | Some (a, b, c) =>
      match i with
      | 0%nat => ret a
      | 1%nat => ret b
      | 2%nat => ret c
      | _ => raise (IndexError (lit "tuple index out of range"))
      end
  end.

(** [v[:n]] *)
Definition slice_to (v : value) (n : nat) : M value :=
  match v with
  | PStr s => ret (PStr (firstn n s))
  | PNone => raise (not_subscriptable "NoneType")
  | PInt _ => raise (not_subscriptable "int")
  end.

(** ** The script *)

(** The body of the [try] block, statement by statement. *)
Definition body (env : environment) : M unit :=
  psycopg2_connect env (DATABASE_URL env) ;;;
  conn_cursor env ;;;
  cur_execute_update env (lit "sent", lit "Cancelled - Odessa account locked") ;;;
  result <- cur_fetchone env ;;
  r0 <- getitem result 0 ;;
  r1 <- getitem result 1 ;;
  name <- slice_to r1 50 ;;
  r2 <- getitem result 2 ;;
  print (lit "Case 42 updated: ID=" ++ str r0 ++ lit ", Name=" ++ str name
           ++ lit ", Status=" ++ str r2) ;;;
  t <- datetime_now env ;;
  cur_execute_insert env
    (42, lit "portal_cancelled",
     lit "Portal submission cancelled - Odessa account locked", t) ;;;
  conn_commit env ;;;
  print (lit "Activity logged for case 42") ;;;
  cur_close env ;;;
  conn_close env ;;;
  print (lit "Successfully cancelled case 42 portal submission").

(** [except Exception as e: print(f"Error: {e}")] *)
Definition handler (e : exn) : M unit :=
  print (lit "Error: " ++ str_exn e).

Definition script (env : environment) : M unit :=
  try_except (body env) handler.

(** ** Running the script as a process *)

(** The world when the process starts on database [d]. *)
Definition start (d : database) : world :=
  {| committed := d; pending := None; result_set := []; trace := [] |}.

Definition run (env : environment) (d : database) : (exn + unit) * world :=
  script env (start d).

(** The exit status of the interpreter: 1 when an exception leaves the
    module, 0 when the module runs to its end. *)
Definition exit_status (r : exn + unit) : Z :=
  match r with
  | inl _ => 1
  | inr _ => 0
  end.

(** The exception that escaped the [try] block, if one did. *)
Definition failure (env : environment) (d : database) : option exn :=
  match fst (body env (start d)) with
  | inl e => Some e
  | inr _ => None
  end.

(** A successful run: the [try] block ran to its last statement. *)
Definition succeeded (env : environment) (d : database) : Prop :=
  failure env d = None.

(** The database once the process is gone: what was committed.  A
    connection left open dies with the process and its transaction with
    it. *)
Definition database_after (env : environment) (d : database) : database :=
  committed (snd (run env d)).

Definition events (env : environment) (d : database) : list event :=
  trace (snd (run env d)).

Fixpoint printed (tr : list event) : list pystr :=
  match tr with
  | [] => []
  | Printed l :: tr' => l :: printed tr'
  | Called _ :: tr' => printed tr'
  end.

(** Standard output, one entry per [print]. *)
Definition stdout (env : environment) (d : database) : list pystr :=
  printed (events env d).

Definition is_error_line (l : pystr) : bool := starts_with (lit "Error: ") l.

Definition is_confirmation_line (l : pystr) : bool :=
  starts_with (lit "Case 42 updated: ") l.

(** The database after both statements of the transaction. *)
Definition transaction (env : environment) (d : database) : database :=
  {| cases := update_cases (lit "sent", lit "Cancelled - Odessa account locked")
                (cases d);
     activity_log :=
       insert_activity_log
         (42, lit "portal_cancelled",
          lit "Portal submission cancelled - Odessa account locked", now env)
         (activity_log d) |}.

(** What a run may do to one row of [cases]: nothing at all when its id
    is not 42, and nothing to its id, its name and the columns the
    statement does not name in any case. *)
Definition framed (r r' : case_row) : Prop :=
  (id r <> 42 -> r' = r) /\
  id r' = id r /\
  case_name r' = case_name r /\
  other_columns r' = other_columns r.

(** The contract of the spec for a connection that cannot be made: an
    error message is printed and the exit status is not the 0 of a
    normal end. *)
Definition fails_loudly (env : environment) (d : database) : Prop :=
  (exists msg, In (lit "Error: " ++ msg) (stdout env d)) /\
  exit_status (fst (run env d)) <> 0.

(** ** Sample inputs *)

Definition row7 : case_row :=
  {| id := 7; case_name := None; status := Some (lit "draft");
     portal_url := None; last_portal_status := None; other_columns := [] |}.

Definition row42 : case_row :=
  {| id := 42;
     case_name := Some (lit "Odessa PD body camera footage request");
     status := Some (lit "portal_in_progress");
     portal_url := Some (lit "https://portal.example/odessa");
     last_portal_status := Some (lit "Login failed");
     other_columns := [("agency_name"%string, PStr (lit "Odessa PD"))] |}.

(** A row whose name has 64 characters. *)
Definition row42_long : case_row :=
  {| id := 42;
     case_name :=
       Some (lit "0123456789abcdef0123456789abcdef0123456789abcdef0123456789abcdef");
     status := Some (lit "portal_in_progress");
     portal_url := None; last_portal_status := None; other_columns := [] |}.

Definition db0 : database := {| cases := [row7; row42]; activity_log := [] |}.

Definition db_long : database := {| cases := [row42_long]; activity_log := [] |}.

Definition db_without_42 : database := {| cases := [row7]; activity_log := [] |}.

Definition no_fault : call -> option pystr := fun _ => None.

Definition fault_at (c : call) (msg : string) : call -> option pystr :=
  fun c' =>
    match c, c' with
    | Connect, Connect | Cursor, Cursor | ExecuteUpdate, ExecuteUpdate
    | FetchOne, FetchOne | ExecuteInsert, ExecuteInsert | Commit, Commit
    | CursorClose, CursorClose | ConnClose, ConnClose => Some (lit msg)
    | _, _ => None
    end.

Definition env_with (url : option pystr) (t : Z) (f : call -> option pystr)
  : environment :=
  {| DATABASE_URL := url; now := t; fault := f;
     missing_dsn := lit "missing dsn and no parameters" |}.

Definition env_ok : environment :=
  env_with (Some (lit "postgresql://autobot@db/autobot")) 1000 no_fault.

Definition env_later : environment :=
  env_with (Some (lit "postgresql://autobot@db/autobot")) 2000 no_fault.

Definition env_unset : environment := env_with None 1000 no_fault.

Definition env_refused : environment :=
  env_with (Some (lit "postgresql://nobody@nowhere/none")) 1000
    (fault_at Connect "connection refused").

Definition env_insert_fails : environment :=
  env_with (Some (lit "postgresql://autobot@db/autobot")) 1000
    (fault_at ExecuteInsert "null value in column violates not-null constraint").

Definition env_commit_fails : environment :=
  env_with (Some (lit "postgresql://autobot@db/autobot")) 1000
    (fault_at Commit "server closed the connection unexpectedly").

(** ** The whole run, seen from outside *)

(** The driver calls of a trace, oldest first. *)
Fixpoint calls (tr : list event) : list call :=
  match tr with
  | [] => []
  | Called c :: tr' => c :: calls tr'
  | Printed _ :: tr' => calls tr'
  end.

(** The driver calls of the [try] block, in the order of the source. *)
Definition program_order : list call :=
  [Connect; Cursor; ExecuteUpdate; FetchOne; ExecuteInsert; Commit;
   CursorClose; ConnClose].

(** The row the INSERT of the script adds, with the clock read at the
    statement. *)
Definition logged_row (env : environment) : log_row :=
  {| case_id := 42;
     event_type := lit "portal_cancelled";
     description := lit "Portal submission cancelled - Odessa account locked";
     created_at := now env |}.

(** What the process leaves of its connection when it ends: [None] when
    [conn.close()] was carried out (or no connection was made), the
    transaction still open otherwise. *)
Definition connection_after (env : environment) (d : database)
  : option database :=
  pending (snd (run env d)).

Definition row42_null_name : case_row :=
  {| id := 42; case_name := None; status := Some (lit "portal_in_progress");
     portal_url := Some (lit "https://portal.example/odessa");
     last_portal_status := None; other_columns := [] |}.

Definition db_null_name : database :=
  {| cases := [row7; row42_null_name]; activity_log := [] |}.

Definition env_cursor_close_fails : environment :=
  env_with (Some (lit "postgresql://autobot@db/autobot")) 1000
    (fault_at CursorClose "cursor already closed").

(** * Symbolic execution of the script *)

Lemma find_filter_head {A} (f : A -> bool) l r rest :
  filter f l = r :: rest -> find f l = Some r.
Proof.
  induction l as [| a l IH]; cbn [filter find]; intros H.
  - discriminate H.
  - destruct (f a); [congruence | exact (IH H)].
Qed.

#[local] Arguments lit : simpl never.
#[local] Arguments str_int : simpl never.
#[local] Arguments filter : simpl never.
#[local] Arguments firstn : simpl never.

Ltac unfold_script :=
  unfold database_after, stdout, events, succeeded, failure, run, script,
    try_except, body, handler, psycopg2_connect, conn_cursor,
    cur_execute_update, cur_fetchone, cur_execute_insert, conn_commit,
    cur_close, conn_close, print, datetime_now, driver_call, get_pending,
    set_pending, set_result_set, record, bind, ret, raise, start, returning
    in *.

Ltac case_on t := destruct t eqn:?; cbn.

(** One goal per way the [try] block can end: the eleven places where it
    can raise, in program order, and its normal end. *)
Ltac paths env d :=
  unfold_script; cbn;
  case_on (DATABASE_URL env);
  [ case_on (fault env Connect);
    [ | case_on (fault env Cursor);
        [ | case_on (fault env ExecuteUpdate);
            [ | case_on (fault env FetchOne);
                [ | case_on (filter where_id_42 (cases d));
                    [ | match goal with
                        | H : filter where_id_42 _ = ?r :: _ |- _ =>
                            case_on (case_name r)
                        end;
                        [ case_on (fault env ExecuteInsert);
                          [ | case_on (fault env Commit);
                              [ | case_on (fault env CursorClose);
                                  [ | case_on (fault env ConnClose) ] ] ]
                        | ] ] ] ] ] ]
  | ].

(** ** The sample runs *)

Example run_ok_stdout :
  stdout env_ok db0 =
  [ lit "Case 42 updated: ID=42, Name=Odessa PD body camera footage request, Status=sent";
    lit "Activity logged for case 42";
    lit "Successfully cancelled case 42 portal submission" ].
Proof. vm_compute. reflexivity. Qed.

Example run_ok_events :
  events env_ok db0 =
  [ Called Connect; Called Cursor; Called ExecuteUpdate; Called FetchOne;
    Printed (lit "Case 42 updated: ID=42, Name=Odessa PD body camera footage request, Status=sent");
    Called ExecuteInsert; Called Commit;
    Printed (lit "Activity logged for case 42");
    Called CursorClose; Called ConnClose;
    Printed (lit "Successfully cancelled case 42 portal submission") ].
Proof. vm_compute. reflexivity. Qed.

Example run_without_row_stdout :
  stdout env_ok db_without_42 = [ lit "Error: 'NoneType' object is not subscriptable" ].
Proof. vm_compute. reflexivity. Qed.

Example run_insert_fails_stdout :
  stdout env_insert_fails db0 =
  [ lit "Case 42 updated: ID=42, Name=Odessa PD body camera footage request, Status=sent";
    lit "Error: null value in column violates not-null constraint" ].
Proof. vm_compute. reflexivity. Qed.

Example run_insert_fails_database : database_after env_insert_fails db0 = db0.
Proof. vm_compute. reflexivity. Qed.

(** ** What a run leaves in the database *)

Lemma database_after_choice env d :
  database_after env d = d \/ database_after env d = transaction env d.
Proof.
  paths env d; auto.
Qed.

Lemma succeeded_database_after env d :
  succeeded env d -> database_after env d = transaction env d.
Proof.
  paths env d; intros H; try discriminate H; reflexivity.
Qed.

Lemma nth_error_update_cases params t i r :
  nth_error t i = Some r ->
  nth_error (update_cases params t) i =
  Some (if where_id_42 r then set_columns params r else r).
Proof.
  intros H. unfold update_cases.
  rewrite nth_error_map, H. reflexivity.
Qed.

(** C1: in a successful run, a row of [cases] with id 42 has, at the same
    place of the table afterwards, status 'sent', portal_url NULL and
    last_portal_status 'Cancelled - Odessa account locked'. *)
Theorem successful_run_cancels_case_42 env d i r :
  nth_error (cases d) i = Some r ->
  id r = 42 ->
  succeeded env d ->
  exists r',
    nth_error (cases (database_after env d)) i = Some r' /\
    status r' = Some (lit "sent") /\
    portal_url r' = None /\
    last_portal_status r' = Some (lit "Cancelled - Odessa account locked").
Proof.
  intros Hrow Hid Hok.
  rewrite (succeeded_database_after env d Hok).
  unfold transaction; cbn [cases].
  rewrite (nth_error_update_cases _ _ _ _ Hrow).
  unfold where_id_42. rewrite Hid. cbn.
  eexists. split; [reflexivity | auto].
Qed.

Lemma successful_run_cancels_case_42_witness :
  nth_error (cases db0) 1 = Some row42 /\
  id row42 = 42 /\
  succeeded env_ok db0 /\
  exists r',
    nth_error (cases (database_after env_ok db0)) 1 = Some r' /\
    status r' = Some (lit "sent") /\
    portal_url r' = None /\
    last_portal_status r' = Some (lit "Cancelled - Odessa account locked").
Proof.
  split; [reflexivity | split; [reflexivity | split; [reflexivity | ]]].
  apply (successful_run_cancels_case_42 env_ok db0 1 row42); reflexivity.
Defined.

Section Frame.

Variable params : pystr * pystr.

Lemma framed_refl r : framed r r.
Proof. repeat split. Qed.

Lemma framed_update r :
  framed r (if where_id_42 r then set_columns params r else r).
Proof.
  unfold where_id_42.
  destruct (Z.eqb_spec (id r) 42) as [E | E].
  - repeat split. intros N. contradiction.
  - apply framed_refl.
Qed.

Lemma update_cases_framed t : Forall2 framed t (update_cases params t).
Proof.
  induction t as [| r t IH]; cbn.
  - constructor.
  - constructor; [apply framed_update | exact IH].
Qed.

Lemma same_table_framed t : Forall2 framed t t.
Proof.
  induction t as [| r t IH]; constructor; [apply framed_refl | exact IH].
Qed.

End Frame.

(** C2: whatever the run does, the table [cases] afterwards has the rows
    of the table before, in the same order, where a row whose id is not
    42 is unchanged and the row with id 42 keeps its id, its case_name
    and every column other than status, portal_url and
    last_portal_status. *)
Theorem run_frames_cases env d :
  Forall2 framed (cases d) (cases (database_after env d)).
Proof.
  destruct (database_after_choice env d) as [-> | ->].
  - apply same_table_framed.
  - apply update_cases_framed.
Qed.

Lemma run_frames_cases_witness :
  Forall2 framed (cases db0) (cases (database_after env_ok db0)) /\
  nth_error (cases (database_after env_ok db0)) 0 = Some row7.
Proof.
  split; [apply (run_frames_cases env_ok db0) | reflexivity].
Defined.

(** C3: a successful run appends exactly one row to [activity_log], with
    case_id 42 and event_type 'portal_cancelled'; a second successful
    run on the result appends a second such row, so running twice is not
    the same as running once. *)
Theorem successful_run_appends_one_log_row env1 env2 d :
  succeeded env1 d ->
  (exists row,
      activity_log (database_after env1 d) = activity_log d ++ [row] /\
      case_id row = 42 /\ event_type row = lit "portal_cancelled") /\
  (succeeded env2 (database_after env1 d) ->
   exists row1 row2,
     activity_log (database_after env2 (database_after env1 d)) =
       activity_log d ++ [row1; row2] /\
     case_id row1 = 42 /\ event_type row1 = lit "portal_cancelled" /\
     case_id row2 = 42 /\ event_type row2 = lit "portal_cancelled" /\
     database_after env2 (database_after env1 d) <> database_after env1 d).
Proof.
  intros H1. split.
  - rewrite (succeeded_database_after _ _ H1). cbn.
    eexists. split; [reflexivity | split; reflexivity].
  - intros H2.
    rewrite (succeeded_database_after _ _ H2).
    rewrite (succeeded_database_after _ _ H1). cbn.
    rewrite <- app_assoc. cbn.
    do 2 eexists. split; [reflexivity | ].
    do 4 (split; [reflexivity | ]).
    intros E. apply (f_equal activity_log) in E. cbn in E.
    rewrite <- app_assoc in E. apply app_inv_head in E.
    discriminate E.
Qed.

Lemma successful_run_appends_one_log_row_witness :
  succeeded env_ok db0 /\
  succeeded env_later (database_after env_ok db0) /\
  List.length (activity_log (database_after env_ok db0)) = 1%nat /\
  List.length (activity_log (database_after env_later (database_after env_ok db0))) = 2%nat.
Proof.
  split; [reflexivity | split; [reflexivity | ]].
  destruct (successful_run_appends_one_log_row env_ok env_later db0 eq_refl)
    as [[row [E1 _]] H2].
  destruct (H2 eq_refl) as [row1 [row2 [E2 _]]].
  rewrite E1, E2. split; reflexivity.
Defined.

(** ** What a run does, in order *)

(** From [tr = pre ++ e :: post] with [tr] a known list: one case per
    place where [e] can sit. *)
Ltac split_trace H :=
  let x := fresh "x" in
  let pre' := fresh "pre" in
  let Hx := fresh "Hx" in
  match type of H with
  | _ = ?pre ++ _ :: _ =>
      destruct pre as [| x pre']; cbn in H;
      [ try discriminate H; inversion H; subst; clear H
      | first [ discriminate H
              | injection H as Hx H; subst x; split_trace H ] ]
  end.

Ltac in_list := cbn; repeat (first [left; reflexivity | right]).

Ltac not_in_list := cbn; intuition discriminate.

Lemma no_row_42_filter t :
  (forall r, In r t -> id r <> 42) -> filter where_id_42 t = [].
Proof.
  intros H.
  destruct (filter where_id_42 t) as [| r rest] eqn:E; [reflexivity | ].
  assert (Hin : In r (filter where_id_42 t)) by (rewrite E; left; reflexivity).
  apply filter_In in Hin. destruct Hin as [Hin Hid].
  apply Z.eqb_eq in Hid. elim (H r Hin Hid).
Qed.

(** The two changes together are a change: the log has one row more. *)
Lemma transaction_changes env d : transaction env d <> d.
Proof.
  intros E. apply (f_equal (fun x => List.length (activity_log x))) in E.
  cbn in E. rewrite length_app in E. cbn in E. lia.
Qed.

(** C4: the two statements are one transaction.  The database afterwards
    is either the database before or the database with both changes,
    which is never the database before; a call to commit comes after the
    calls that execute the update and the insert, and neither of them
    raised; a commit that is called and does not raise leaves both
    changes committed, and so does every successful run; a run that never
    calls commit leaves the database as it was; so does a run whose
    commit raises, and so does a run whose insert raises, although its
    update had been executed. *)
Theorem update_and_insert_are_one_transaction env d :
  (database_after env d = d \/ database_after env d = transaction env d) /\
  (forall pre post,
      events env d = pre ++ Called Commit :: post ->
      In (Called ExecuteUpdate) pre /\ In (Called ExecuteInsert) pre /\
      fault env ExecuteUpdate = None /\ fault env ExecuteInsert = None) /\
  (~ In (Called Commit) (events env d) -> database_after env d = d) /\
  (forall msg,
      fault env ExecuteInsert = Some msg -> database_after env d = d) /\
  (In (Called Commit) (events env d) ->
   fault env Commit = None ->
   database_after env d = transaction env d) /\
  (forall msg,
      fault env Commit = Some msg -> database_after env d = d) /\
  (succeeded env d -> database_after env d = transaction env d) /\
  transaction env d <> d /\
  cases (transaction env d) =
    update_cases (lit "sent", lit "Cancelled - Odessa account locked")
      (cases d) /\
  activity_log (transaction env d) =
    activity_log d ++
      [{| case_id := 42;
          event_type := lit "portal_cancelled";
          description :=
            lit "Portal submission cancelled - Odessa account locked";
          created_at := now env |}].
Proof.
  split; [apply database_after_choice | ].
  split; [ | split; [ | split; [ | split; [ | split; [ | split ] ] ] ] ].
  - paths env d; intros pre post H; split_trace H;
      repeat split; solve [in_list | assumption].
  - paths env d; intros H; try reflexivity; elim H; in_list.
  - paths env d; intros msg H; solve [reflexivity | discriminate H].
  - paths env d; intros Hin Hf;
      solve [ reflexivity | discriminate Hf
            | exfalso; revert Hin; not_in_list ].
  - paths env d; intros msg H; solve [reflexivity | discriminate H].
  - apply succeeded_database_after.
  - split; [apply transaction_changes | split; reflexivity].
Qed.

Lemma update_and_insert_are_one_transaction_witness :
  In (Called ExecuteUpdate) (events env_insert_fails db0) /\
  In (Called ExecuteInsert) (events env_insert_fails db0) /\
  fault env_insert_fails ExecuteUpdate = None /\
  database_after env_insert_fails db0 = db0 /\
  In (Called Commit) (events env_ok db0) /\
  fault env_ok Commit = None /\
  database_after env_ok db0 = transaction env_ok db0 /\
  database_after env_ok db0 <> db0 /\
  fault env_commit_fails Commit =
    Some (lit "server closed the connection unexpectedly") /\
  database_after env_commit_fails db0 = db0.
Proof.
  assert (Hin : In (Called Commit) (events env_ok db0))
    by (vm_compute; tauto).
  destruct (update_and_insert_are_one_transaction env_insert_fails db0)
    as [_ [_ [_ [Hins _]]]].
  destruct (update_and_insert_are_one_transaction env_ok db0)
    as [_ [_ [_ [_ [Hcommit [_ [_ [Hneq _]]]]]]]].
  destruct (update_and_insert_are_one_transaction env_commit_fails db0)
    as [_ [_ [_ [_ [_ [Hfail _]]]]]].
  split; [vm_compute; tauto | ].
  split; [vm_compute; tauto | ].
  split; [reflexivity | ].
  split; [apply (Hins (lit "null value in column violates not-null constraint"));
          reflexivity | ].
  split; [exact Hin | ].
  split; [reflexivity | ].
  split; [exact (Hcommit Hin eq_refl) | ].
  split; [rewrite (Hcommit Hin eq_refl); exact Hneq | ].
  split; [reflexivity | ].
  apply (Hfail (lit "server closed the connection unexpectedly")).
  reflexivity.
Defined.

(** C5: when [cases] has no row with id 42, the run prints one line,
    'Error: ' followed by a message, calls neither the insert nor commit,
    and leaves the database as it was. *)
Theorem missing_row_is_reported_and_nothing_changes env d :
  (forall r, In r (cases d) -> id r <> 42) ->
  (exists msg, stdout env d = [lit "Error: " ++ msg]) /\
  ~ In (Called ExecuteInsert) (events env d) /\
  ~ In (Called Commit) (events env d) /\
  database_after env d = d.
Proof.
  intros Hno. pose proof (no_row_42_filter _ Hno) as Hf.
  paths env d; try congruence;
    (split; [eexists; reflexivity | ]);
    (split; [not_in_list | ]);
    (split; [not_in_list | reflexivity]).
Qed.

Lemma missing_row_is_reported_and_nothing_changes_witness :
  (forall r, In r (cases db_without_42) -> id r <> 42) /\
  stdout env_ok db_without_42 =
    [lit "Error: 'NoneType' object is not subscriptable"] /\
  ~ In (Called ExecuteInsert) (events env_ok db_without_42) /\
  database_after env_ok db_without_42 = db_without_42.
Proof.
  assert (Hno : forall r, In r (cases db_without_42) -> id r <> 42).
  { intros r [<- | []]. discriminate. }
  destruct (missing_row_is_reported_and_nothing_changes env_ok db_without_42 Hno)
    as [_ [Hins [_ Hdb]]].
  split; [exact Hno | ].
  split; [vm_compute; reflexivity | ].
  split; [exact Hins | exact Hdb].
Defined.

(** C9: when DATABASE_URL is unset, or set to something the driver does
    not connect to, the run prints one line, 'Error: ' followed by a
    message, executes neither the UPDATE nor the INSERT, and leaves the
    database as it was. *)
Theorem no_connection_no_mutation env d :
  DATABASE_URL env = None \/ (exists msg, fault env Connect = Some msg) ->
  (exists msg, stdout env d = [lit "Error: " ++ msg]) /\
  ~ In (Called ExecuteUpdate) (events env d) /\
  ~ In (Called ExecuteInsert) (events env d) /\
  database_after env d = d.
Proof.
  intros H. unfold_script; cbn.
  destruct (DATABASE_URL env) as [dsn | ] eqn:Hurl; cbn.
  - destruct H as [H | [msg H]]; [discriminate H | ].
    rewrite H; cbn.
    split; [eexists; reflexivity | ].
    repeat split; not_in_list.
  - split; [eexists; reflexivity | ].
    repeat split; not_in_list.
Qed.

Lemma no_connection_no_mutation_witness :
  DATABASE_URL env_unset = None /\
  fault env_refused Connect = Some (lit "connection refused") /\
  stdout env_unset db0 = [lit "Error: missing dsn and no parameters"] /\
  stdout env_refused db0 = [lit "Error: connection refused"] /\
  database_after env_unset db0 = db0 /\
  database_after env_refused db0 = db0.
Proof.
  pose proof (no_connection_no_mutation env_unset db0 (or_introl eq_refl))
    as [_ [_ [_ H1]]].
  pose proof (no_connection_no_mutation env_refused db0
                (or_intror (ex_intro _ (lit "connection refused") eq_refl)))
    as [_ [_ [_ H2]]].
  split; [reflexivity | ].
  split; [reflexivity | ].
  split; [vm_compute; reflexivity | ].
  split; [vm_compute; reflexivity | ].
  split; [exact H1 | exact H2].
Defined.

(** ** The handler *)

Lemma failure_when env d :
  DATABASE_URL env = None \/
  (exists c msg, fault env c = Some msg) \/
  (forall r, In r (cases d) -> id r <> 42) ->
  failure env d <> None.
Proof.
  intros H.
  assert (Hrow : (forall r, In r (cases d) -> id r <> 42) ->
                 filter where_id_42 (cases d) = [])
    by apply no_row_42_filter.
  paths env d; try discriminate.
  exfalso. destruct H as [H | [[k [msg H]] | H]].
  - congruence.
  - destruct k; congruence.
  - specialize (Hrow H). congruence.
Qed.

Ltac no_error_line_before :=
  let l := fresh "l" in
  let Hl := fresh "Hl" in
  cbn; intros l Hl;
  repeat (destruct Hl as [<- | Hl]; [reflexivity | ]);
  elim Hl.

Ltac error_line_is_last :=
  first [ exists []; split; [reflexivity | no_error_line_before]
        | eexists [_]; split; [reflexivity | no_error_line_before]
        | eexists [_; _]; split; [reflexivity | no_error_line_before] ].

Lemma failure_is_handled env d e :
  failure env d = Some e ->
  fst (run env d) = inr tt /\
  exists before,
    stdout env d = before ++ [lit "Error: " ++ str_exn e] /\
    forall l, In l before -> is_error_line l = false.
Proof.
  paths env d; intros H; try discriminate H;
    injection H as <-; (split; [reflexivity | ]); cbn;
    error_line_is_last.
Qed.

(** C6, as the code has it: when DATABASE_URL is unset, or the driver
    does not connect, the exception is caught; the run makes no other
    call to the driver, prints one line, 'Error: ' followed by the
    message of the exception, and the process ends with exit status 0,
    the status of a successful run. *)
Theorem connection_failure_is_printed_and_exits_normally env d :
  DATABASE_URL env = None \/ (exists msg, fault env Connect = Some msg) ->
  exists e,
    failure env d = Some e /\
    events env d = [Called Connect; Printed (lit "Error: " ++ str_exn e)] /\
    stdout env d = [lit "Error: " ++ str_exn e] /\
    exit_status (fst (run env d)) = 0.
Proof.
  intros H. unfold_script; cbn.
  destruct (DATABASE_URL env) as [dsn | ]; cbn.
  - destruct H as [H | [msg H]]; [discriminate H | ].
    rewrite H; cbn.
    eexists. repeat split.
  - eexists. repeat split.
Qed.

Lemma connection_failure_is_printed_and_exits_normally_witness :
  DATABASE_URL env_unset = None /\
  stdout env_unset db0 = [lit "Error: missing dsn and no parameters"] /\
  exit_status (fst (run env_unset db0)) = 0.
Proof.
  destruct (connection_failure_is_printed_and_exits_normally env_unset db0
              (or_introl eq_refl)) as [e [_ [_ [_ Hexit]]]].
  split; [reflexivity | ].
  split; [vm_compute; reflexivity | exact Hexit].
Defined.

(** C6, as the spec has it, fails: with DATABASE_URL unset the run does
    not fail loudly, and neither does it when the driver refuses the
    connection; the exit status is that of a successful run. *)
Lemma connection_failure_is_not_loud :
  DATABASE_URL env_unset = None /\
  ~ fails_loudly env_unset db0 /\
  fault env_refused Connect = Some (lit "connection refused") /\
  ~ fails_loudly env_refused db0 /\
  succeeded env_ok db0 /\
  exit_status (fst (run env_unset db0)) = exit_status (fst (run env_ok db0)).
Proof.
  split; [reflexivity | ].
  split; [intros [_ H]; apply H; reflexivity | ].
  split; [reflexivity | ].
  split; [intros [_ H]; apply H; reflexivity | ].
  split; reflexivity.
Qed.

(** C7: whenever something fails (DATABASE_URL unset, a driver call that
    raises, be it connect, a statement or commit, no row with id 42, or
    any other exception in the [try] block), the exception is caught by
    the handler: nothing is raised out of the script, the last line
    printed is 'Error: ' followed by the message of the exception, no
    line printed before it is an error line, and the exit status is 0. *)
Theorem every_failure_is_caught_and_printed env d :
  DATABASE_URL env = None \/
  (exists c msg, fault env c = Some msg) \/
  (forall r, In r (cases d) -> id r <> 42) \/
  failure env d <> None ->
  exists e,
    failure env d = Some e /\
    fst (run env d) = inr tt /\
    exit_status (fst (run env d)) = 0 /\
    exists before,
      stdout env d = before ++ [lit "Error: " ++ str_exn e] /\
      forall l, In l before -> is_error_line l = false.
Proof.
  intros H.
  assert (Hfail : failure env d <> None).
  { destruct H as [H | [H | [H | H]]];
      [ apply failure_when; auto | apply failure_when; auto
      | apply failure_when; auto | exact H ]. }
  destruct (failure env d) as [e | ] eqn:He; [ | contradiction].
  destruct (failure_is_handled env d e He) as [Hrun Hout].
  exists e. split; [reflexivity | ].
  split; [exact Hrun | ].
  split; [rewrite Hrun; reflexivity | exact Hout].
Qed.

Lemma every_failure_is_caught_and_printed_witness :
  fault env_commit_fails Commit =
    Some (lit "server closed the connection unexpectedly") /\
  stdout env_commit_fails db0 =
    [ lit "Case 42 updated: ID=42, Name=Odessa PD body camera footage request, Status=sent";
      lit "Error: server closed the connection unexpectedly" ] /\
  exit_status (fst (run env_commit_fails db0)) = 0.
Proof.
  destruct (every_failure_is_caught_and_printed env_commit_fails db0) as
    [e [_ [_ [Hexit _]]]].
  { right; left. exists Commit. eexists. reflexivity. }
  split; [reflexivity | ].
  split; [vm_compute; reflexivity | exact Hexit].
Defined.

(** ** The confirmation line *)

Lemma confirmation_line_shape ident name st :
  is_confirmation_line
    (lit "Case 42 updated: ID=" ++ ident ++ lit ", Name=" ++ name
       ++ lit ", Status=" ++ st) = true.
Proof. reflexivity. Qed.

Lemma other_lines_are_not_confirmations msg :
  is_confirmation_line (lit "Error: " ++ msg) = false /\
  is_confirmation_line (lit "Activity logged for case 42") = false /\
  is_confirmation_line (lit "Successfully cancelled case 42 portal submission")
    = false.
Proof. repeat split. Qed.

(** C8: a confirmation line on standard output is the one the script
    builds from the first row of [cases] with id 42, and the name it
    shows is the first 50 characters of that row's case_name: never more
    than 50 characters, and exactly 50 when the stored name is longer. *)
Theorem confirmation_line_truncates_name env d line :
  In line (stdout env d) ->
  is_confirmation_line line = true ->
  exists r name,
    find where_id_42 (cases d) = Some r /\
    case_name r = Some name /\
    line = lit "Case 42 updated: ID=" ++ str_int (id r) ++ lit ", Name="
             ++ firstn 50 name ++ lit ", Status=" ++ lit "sent" /\
    (List.length (firstn 50 name) <= 50)%nat /\
    ((50 < List.length name)%nat -> List.length (firstn 50 name) = 50%nat).
Proof.
  assert (Hcut : forall name : pystr,
             (List.length (firstn 50 name) <= 50)%nat /\
             ((50 < List.length name)%nat ->
              List.length (firstn 50 name) = 50%nat)).
  { intros name. rewrite length_firstn. lia. }
  paths env d; intros Hin Hconf;
    repeat
      (destruct Hin as [<- | Hin];
       [ first
           [ exfalso; revert Hconf;
             first [ rewrite (proj1 (other_lines_are_not_confirmations _))
                   | rewrite (proj1 (proj2 (other_lines_are_not_confirmations [])))
                   | rewrite (proj2 (proj2 (other_lines_are_not_confirmations []))) ];
             discriminate
           | match goal with
             | Hf : filter where_id_42 _ = ?r :: _,
               Hn : case_name ?r = Some ?name |- _ =>
                 exists r, name;
                 split; [exact (find_filter_head _ _ _ _ Hf) | ];
                 split; [exact Hn | ];
                 split; [reflexivity | apply Hcut]
             end ]
       | ]);
    elim Hin.
Qed.

Lemma confirmation_line_truncates_name_witness :
  (50 < List.length
          (lit "0123456789abcdef0123456789abcdef0123456789abcdef0123456789abcdef"))%nat /\
  In (lit "Case 42 updated: ID=42, Name=0123456789abcdef0123456789abcdef0123456789abcdef01, Status=sent")
     (stdout env_ok db_long) /\
  exists r name,
    find where_id_42 (cases db_long) = Some r /\
    case_name r = Some name /\
    lit "Case 42 updated: ID=42, Name=0123456789abcdef0123456789abcdef0123456789abcdef01, Status=sent" =
      lit "Case 42 updated: ID=" ++ str_int (id r) ++ lit ", Name="
        ++ firstn 50 name ++ lit ", Status=" ++ lit "sent" /\
    (List.length (firstn 50 name) <= 50)%nat /\
    ((50 < List.length name)%nat -> List.length (firstn 50 name) = 50%nat).
Proof.
  split; [vm_compute; lia | ].
  split; [vm_compute; tauto | ].
  apply (confirmation_line_truncates_name env_ok db_long).
  - vm_compute. tauto.
  - reflexivity.
Defined.

(** C10: the line 'Case 42 updated: ...' is printed before the insert is
    executed and before commit is called; so a run in which the insert or
    the commit is reached and raises has that line on standard output
    while the database is left as it was. *)
Theorem confirmation_precedes_insert_and_commit env d :
  (forall pre c post,
      events env d = pre ++ Called c :: post ->
      c = ExecuteInsert \/ c = Commit ->
      exists line, In (Printed line) pre /\ is_confirmation_line line = true) /\
  (forall c msg,
      c = ExecuteInsert \/ c = Commit ->
      In (Called c) (events env d) ->
      fault env c = Some msg ->
      (exists line, In line (stdout env d) /\ is_confirmation_line line = true) /\
      database_after env d = d).
Proof.
  split.
  - paths env d; intros pre k post H Hk; split_trace H;
      try (destruct Hk; discriminate);
      (eexists; split; [in_list | reflexivity]).
  - paths env d; intros k msg Hk Hin Hf;
      destruct Hk; subst k; try congruence;
      try (exfalso; revert Hin; not_in_list);
      (split; [eexists; split; [left; reflexivity | reflexivity]
              | reflexivity]).
Qed.

Lemma confirmation_precedes_insert_and_commit_witness :
  In (Called Commit) (events env_commit_fails db0) /\
  fault env_commit_fails Commit =
    Some (lit "server closed the connection unexpectedly") /\
  In (lit "Case 42 updated: ID=42, Name=Odessa PD body camera footage request, Status=sent")
     (stdout env_commit_fails db0) /\
  database_after env_commit_fails db0 = db0.
Proof.
  assert (Hin : In (Called Commit) (events env_commit_fails db0))
    by (vm_compute; tauto).
  destruct (confirmation_precedes_insert_and_commit env_commit_fails db0)
    as [_ H].
  destruct (H Commit (lit "server closed the connection unexpectedly")
              (or_intror eq_refl) Hin eq_refl) as [_ Hdb].
  split; [exact Hin | ].
  split; [reflexivity | ].
  split; [vm_compute; tauto | exact Hdb].
Defined.

(** * More of the script: what a run looks like from outside *)

Ltac first_char_differs H :=
  apply (f_equal (fun l : pystr => hd 0%N l)) in H;
  vm_compute in H; discriminate H.

Lemma find_some_filter {A} (f : A -> bool) l r :
  find f l = Some r -> exists rest, filter f l = r :: rest.
Proof.
  induction l as [| a l IH]; intros H.
  - discriminate H.
  - change (filter f (a :: l))
      with (if f a then a :: filter f l else filter f l).
    cbn [find] in H. destruct (f a).
    + injection H as <-. eexists. reflexivity.
    + exact (IH H).
Qed.

Lemma filter_head_matches t r rest :
  filter where_id_42 t = r :: rest -> id r = 42.
Proof.
  intros H.
  assert (Hin : In r (filter where_id_42 t)) by (rewrite H; left; reflexivity).
  apply filter_In in Hin. apply Z.eqb_eq. exact (proj2 Hin).
Qed.

(** X1: the driver calls of a run are an initial part of the eight calls
    of the source, in the order of the source, each made at most once;
    connect is always among them, and a successful run makes all
    eight. *)
Theorem driver_calls_follow_program_order env d :
  exists n,
    calls (events env d) = firstn n program_order /\
    (1 <= n <= 8)%nat /\
    (succeeded env d -> n = 8%nat).
Proof.
  paths env d;
    first
      [ exists 1%nat; split; [reflexivity | ]
      | exists 2%nat; split; [reflexivity | ]
      | exists 3%nat; split; [reflexivity | ]
      | exists 4%nat; split; [reflexivity | ]
      | exists 5%nat; split; [reflexivity | ]
      | exists 6%nat; split; [reflexivity | ]
      | exists 7%nat; split; [reflexivity | ]
      | exists 8%nat; split; [reflexivity | ] ];
    (split; [lia | intros H; solve [discriminate H | reflexivity]]).
Qed.

Lemma driver_calls_follow_program_order_witness :
  calls (events env_commit_fails db0) = firstn 6 program_order /\
  calls (events env_ok db0) = program_order /\
  exists n,
    calls (events env_ok db0) = firstn n program_order /\
    (1 <= n <= 8)%nat /\
    (succeeded env_ok db0 -> n = 8%nat).
Proof.
  split; [vm_compute; reflexivity | ].
  split; [vm_compute; reflexivity | ].
  apply (driver_calls_follow_program_order env_ok db0).
Defined.

(** ** The lines of standard output *)

Lemma success_stdout env d :
  succeeded env d ->
  exists r name,
    find where_id_42 (cases d) = Some r /\
    case_name r = Some name /\
    stdout env d =
      [ lit "Case 42 updated: ID=42, Name=" ++ firstn 50 name
          ++ lit ", Status=sent";
        lit "Activity logged for case 42";
        lit "Successfully cancelled case 42 portal submission" ].
Proof.
  paths env d; intros H; try discriminate H.
  match goal with
  | Hf : filter where_id_42 _ = ?r :: _, Hn : case_name ?r = Some ?name |- _ =>
      exists r, name;
      split; [exact (find_filter_head _ _ _ _ Hf) | ];
      split; [exact Hn | ];
      rewrite (filter_head_matches _ _ _ Hf); reflexivity
  end.
Qed.

(** X2: the exit status is 0 whatever happened, so only standard output
    tells the outcome.  A successful run prints exactly three lines: the
    confirmation, which reads ID=42 and Status=sent around the first 50
    characters of the name of the first row with id 42, then 'Activity
    logged for case 42', then 'Successfully cancelled case 42 portal
    submission'.  The run succeeded exactly when the last line printed is
    that success line, and failed exactly when an error line was
    printed. *)
Theorem stdout_tells_the_outcome env d :
  exit_status (fst (run env d)) = 0 /\
  (succeeded env d ->
   exists r name,
     find where_id_42 (cases d) = Some r /\
     case_name r = Some name /\
     stdout env d =
       [ lit "Case 42 updated: ID=42, Name=" ++ firstn 50 name
           ++ lit ", Status=sent";
         lit "Activity logged for case 42";
         lit "Successfully cancelled case 42 portal submission" ]) /\
  (succeeded env d <->
   last (stdout env d) [] =
     lit "Successfully cancelled case 42 portal submission") /\
  (~ succeeded env d <->
   exists l, In l (stdout env d) /\ is_error_line l = true).
Proof.
  split; [paths env d; reflexivity | ].
  split; [apply success_stdout | split].
  - paths env d; (split; [intros H; try discriminate H; reflexivity | ]);
      intros H; try reflexivity; first_char_differs H.
  - split.
    + intros Hnot. unfold succeeded in Hnot.
      destruct (failure env d) as [e | ] eqn:He; [ | elim Hnot; reflexivity].
      destruct (failure_is_handled env d e He) as [_ [before [Hout _]]].
      exists (lit "Error: " ++ str_exn e). split; [ | reflexivity].
      rewrite Hout. apply in_or_app. right. left. reflexivity.
    + intros [ln [Hin Hl]] Hok.
      destruct (success_stdout env d Hok) as [r [name [_ [_ Hout]]]].
      rewrite Hout in Hin.
      destruct Hin as [<- | [<- | [<- | []]]]; discriminate Hl.
Qed.

Lemma stdout_tells_the_outcome_witness :
  succeeded env_ok db0 /\
  ~ succeeded env_insert_fails db0 /\
  last (stdout env_ok db0) [] =
    lit "Successfully cancelled case 42 portal submission" /\
  exists l, In l (stdout env_insert_fails db0) /\ is_error_line l = true.
Proof.
  destruct (stdout_tells_the_outcome env_ok db0) as [_ [_ [[Hlast _] _]]].
  destruct (stdout_tells_the_outcome env_insert_fails db0)
    as [_ [_ [_ [Herr _]]]].
  assert (Hfail : ~ succeeded env_insert_fails db0)
    by (intros H; discriminate H).
  split; [reflexivity | ].
  split; [exact Hfail | ].
  split; [exact (Hlast eq_refl) | exact (Herr Hfail)].
Defined.

(** ** What was committed, and what is left open *)

Ltac not_the_activity_line Hin :=
  cbn in Hin;
  repeat (destruct Hin as [Hin | Hin]; [first_char_differs Hin | ]);
  elim Hin.

Lemma activity_line_and_commit env d :
  (In (lit "Activity logged for case 42") (stdout env d) ->
   database_after env d = transaction env d) /\
  (~ In (lit "Activity logged for case 42") (stdout env d) ->
   database_after env d = d).
Proof.
  paths env d; split; intros Hin;
    solve [ reflexivity
          | not_the_activity_line Hin
          | elim Hin; in_list ].
Qed.

(** X3: the line 'Activity logged for case 42' is on standard output
    exactly when the transaction was committed, and absent exactly when
    the database is as it was.  In particular a run in which
    [cur.close()] or [conn.close()] raises reports an error although both
    changes are committed. *)
Theorem activity_line_tells_the_commit env d :
  (In (lit "Activity logged for case 42") (stdout env d) <->
   database_after env d = transaction env d) /\
  (~ In (lit "Activity logged for case 42") (stdout env d) <->
   database_after env d = d) /\
  (forall c msg,
      c = CursorClose \/ c = ConnClose ->
      In (Called c) (events env d) ->
      fault env c = Some msg ->
      failure env d = Some (DatabaseError msg) /\
      database_after env d = transaction env d).
Proof.
  destruct (activity_line_and_commit env d) as [Hyes Hno].
  pose proof (transaction_changes env d) as Hneq.
  split; [ | split ].
  - split; [exact Hyes | ].
    intros E. destruct (in_dec (list_eq_dec N.eq_dec)
                          (lit "Activity logged for case 42") (stdout env d))
      as [Hin | Hnin]; [exact Hin | ].
    rewrite (Hno Hnin) in E. elim Hneq. symmetry. exact E.
  - split; [exact Hno | ].
    intros E Hin. rewrite (Hyes Hin) in E. exact (Hneq E).
  - clear Hyes Hno Hneq.
    paths env d; intros k msg Hk Hin Hf;
      destruct Hk; subst k;
      try (exfalso; revert Hin; not_in_list);
      try congruence;
      (split; [congruence | reflexivity]).
Qed.

Lemma activity_line_tells_the_commit_witness :
  In (Called CursorClose) (events env_cursor_close_fails db0) /\
  fault env_cursor_close_fails CursorClose = Some (lit "cursor already closed") /\
  stdout env_cursor_close_fails db0 =
    [ lit "Case 42 updated: ID=42, Name=Odessa PD body camera footage request, Status=sent";
      lit "Activity logged for case 42";
      lit "Error: cursor already closed" ] /\
  failure env_cursor_close_fails db0 =
    Some (DatabaseError (lit "cursor already closed")) /\
  database_after env_cursor_close_fails db0 =
    transaction env_cursor_close_fails db0.
Proof.
  assert (Hin : In (Called CursorClose) (events env_cursor_close_fails db0))
    by (vm_compute; tauto).
  destruct (activity_line_tells_the_commit env_cursor_close_fails db0)
    as [_ [_ H]].
  destruct (H CursorClose (lit "cursor already closed")
              (or_introl eq_refl) Hin eq_refl) as [Hfail Hdb].
  split; [exact Hin | ].
  split; [reflexivity | ].
  split; [vm_compute; reflexivity | ].
  split; [exact Hfail | exact Hdb].
Defined.

(** X4: the connection is released on the successful path only.  After
    a successful run the connection is closed and the cursor holds
    nothing.  After a failed run in which the connection had been made,
    it is still open when the process ends; unless [cur.close()] or
    [conn.close()] is itself what raised, neither of them was called. *)
Theorem connection_is_released_only_on_success env d :
  (succeeded env d ->
   connection_after env d = None /\ result_set (snd (run env d)) = []) /\
  (forall e dsn,
      failure env d = Some e ->
      DATABASE_URL env = Some dsn ->
      fault env Connect = None ->
      connection_after env d <> None) /\
  (forall e,
      failure env d = Some e ->
      fault env CursorClose = None ->
      fault env ConnClose = None ->
      ~ In (Called CursorClose) (events env d) /\
      ~ In (Called ConnClose) (events env d)).
Proof.
  unfold connection_after.
  split; [ | split ].
  - paths env d; intros H; try discriminate H; split; reflexivity.
  - paths env d; intros e dsn H Hurl Hc; solve [discriminate].
  - paths env d; intros e H Hcur Hconn;
      solve [discriminate | split; not_in_list].
Qed.

Lemma connection_is_released_only_on_success_witness :
  succeeded env_ok db0 /\
  connection_after env_ok db0 = None /\
  failure env_insert_fails db0 =
    Some (DatabaseError
            (lit "null value in column violates not-null constraint")) /\
  connection_after env_insert_fails db0 <> None /\
  ~ In (Called ConnClose) (events env_insert_fails db0).
Proof.
  destruct (connection_is_released_only_on_success env_ok db0)
    as [Hok _].
  destruct (connection_is_released_only_on_success env_insert_fails db0)
    as [_ [Hopen Hnocall]].
  split; [reflexivity | ].
  split; [exact (proj1 (Hok eq_refl)) | ].
  split; [reflexivity | ].
  split; [exact (Hopen _ _ eq_refl eq_refl eq_refl) | ].
  exact (proj2 (Hnocall _ eq_refl eq_refl eq_refl)).
Defined.

(** X5: the activity log only grows, and by at most one row.  After any
    run it is the log before, or the log before followed by one row with
    case_id 42, event_type 'portal_cancelled', the fixed description and
    the time read at the insert; no run removes or rewrites a row. *)
Theorem activity_log_only_grows env d :
  activity_log (database_after env d) = activity_log d \/
  activity_log (database_after env d) = activity_log d ++ [logged_row env].
Proof.
  destruct (database_after_choice env d) as [-> | ->].
  - left. reflexivity.
  - right. reflexivity.
Qed.

(** ** When a run succeeds *)

Ltac no_fault_here Hnf :=
  match goal with
  | H : fault _ ?c = Some _ |- _ => rewrite (Hnf c) in H; discriminate H
  end.

(** X6: a run succeeds only if none of the eight driver calls raised and
    the first row of [cases] with id 42 exists and has a case_name that
    is not NULL; a successful run has made every one of the eight
    calls. *)
Theorem run_succeeds_only_if env d :
  succeeded env d ->
  (forall c, fault env c = None /\ In (Called c) (events env d)) /\
  (exists r name,
      find where_id_42 (cases d) = Some r /\ id r = 42 /\
      case_name r = Some name).
Proof.
  paths env d; intros H; try discriminate H.
  split.
  - intros k; destruct k; (split; [assumption | in_list]).
  - match goal with
    | Hf : filter where_id_42 _ = ?r :: _, Hn : case_name ?r = Some ?name |- _ =>
        exists r, name;
        split; [exact (find_filter_head _ _ _ _ Hf) | ];
        split; [exact (filter_head_matches _ _ _ Hf) | exact Hn]
    end.
Qed.

Lemma run_succeeds_only_if_witness :
  succeeded env_ok db0 /\
  (forall c, fault env_ok c = None /\ In (Called c) (events env_ok db0)) /\
  find where_id_42 (cases db0) = Some row42.
Proof.
  destruct (run_succeeds_only_if env_ok db0 eq_refl) as [Hcalls _].
  split; [reflexivity | ].
  split; [exact Hcalls | reflexivity].
Defined.

(** X7: with DATABASE_URL set and no driver call raising, a row with id
    42 whose case_name is NULL stops the run where a missing row does,
    and with the same message: the slice of [None] raises the TypeError
    that the subscript of [None] raises.  The update and the fetch were
    called, the insert and commit were not, one line 'Error: 'NoneType'
    object is not subscriptable' is printed and the database is as it
    was. *)
Theorem null_name_fails_like_missing_row env d :
  (exists dsn, DATABASE_URL env = Some dsn) ->
  (forall c, fault env c = None) ->
  (forall r, In r (cases d) -> id r <> 42) \/
  (exists r, find where_id_42 (cases d) = Some r /\ case_name r = None) ->
  failure env d = Some (not_subscriptable "NoneType") /\
  stdout env d = [lit "Error: 'NoneType' object is not subscriptable"] /\
  calls (events env d) = [Connect; Cursor; ExecuteUpdate; FetchOne] /\
  database_after env d = d.
Proof.
  intros [dsn Hurl] Hnf Hrow.
  assert (Hshape :
            filter where_id_42 (cases d) = [] \/
            exists r rest,
              filter where_id_42 (cases d) = r :: rest /\ case_name r = None).
  { destruct Hrow as [Hno | [r [Hfind Hname]]].
    - left. apply no_row_42_filter. exact Hno.
    - right. destruct (find_some_filter _ _ _ Hfind) as [rest Hf].
      exists r, rest. split; assumption. }
  clear Hrow.
  paths env d; try no_fault_here Hnf; try congruence;
    try (repeat split; reflexivity);
    exfalso; destruct Hshape as [Hs | [r [rest [Hs Hname]]]];
    try congruence;
    match goal with
    | Hf : filter where_id_42 _ = ?c :: _ |- _ =>
        assert (c = r) by congruence; subst c; congruence
    end.
Qed.

Lemma null_name_fails_like_missing_row_witness :
  find where_id_42 (cases db_null_name) = Some row42_null_name /\
  case_name row42_null_name = None /\
  stdout env_ok db_null_name = stdout env_ok db_without_42 /\
  stdout env_ok db_null_name =
    [lit "Error: 'NoneType' object is not subscriptable"] /\
  database_after env_ok db_null_name = db_null_name.
Proof.
  destruct (null_name_fails_like_missing_row env_ok db_null_name)
    as [_ [Hout [_ Hdb]]].
  { eexists; reflexivity. }
  { intros c; reflexivity. }
  { right. exists row42_null_name. split; reflexivity. }
  split; [reflexivity | ].
  split; [reflexivity | ].
  split; [vm_compute; reflexivity | ].
  split; [exact Hout | exact Hdb].
Defined.

(** ** Running the script again *)

Lemma update_cases_twice params t :
  update_cases params (update_cases params t) = update_cases params t.
Proof.
  unfold update_cases. rewrite map_map. apply map_ext. intros r.
  destruct (where_id_42 r) eqn:E.
  - unfold where_id_42 in *. cbn. rewrite E. reflexivity.
  - rewrite E. reflexivity.
Qed.

Lemma find_update_cases params t r :
  find where_id_42 t = Some r ->
  find where_id_42 (update_cases params t) = Some (set_columns params r).
Proof.
  induction t as [| a t IH]; cbn [find update_cases map]; intros H.
  - discriminate H.
  - destruct (where_id_42 a) eqn:E.
    + injection H as <-.
      unfold where_id_42 in *. cbn. rewrite E. reflexivity.
    + rewrite E. exact (IH H).
Qed.

(** X8: once a run has succeeded, running the script again never changes
    the table [cases] again, whatever the second run does; and a second
    run that succeeds prints the same three lines as the first. *)
Theorem second_run_leaves_cases_alone env1 env2 d :
  succeeded env1 d ->
  cases (database_after env2 (database_after env1 d)) =
    cases (database_after env1 d) /\
  (succeeded env2 (database_after env1 d) ->
   stdout env2 (database_after env1 d) = stdout env1 d).
Proof.
  intros H1. rewrite (succeeded_database_after _ _ H1). split.
  - destruct (database_after_choice env2 (transaction env1 d)) as [-> | ->].
    + reflexivity.
    + cbn. apply update_cases_twice.
  - intros H2.
    destruct (success_stdout _ _ H1) as [r [name [Hfind [Hname ->]]]].
    destruct (success_stdout _ _ H2) as [r' [name' [Hfind' [Hname' ->]]]].
    cbn [cases transaction] in Hfind'.
    rewrite (find_update_cases _ _ _ Hfind) in Hfind'.
    injection Hfind' as <-. cbn in Hname'.
    assert (name' = name) by congruence. subst name'. reflexivity.
Qed.

Lemma second_run_leaves_cases_alone_witness :
  succeeded env_ok db0 /\
  succeeded env_later (database_after env_ok db0) /\
  cases (database_after env_later (database_after env_ok db0)) =
    cases (database_after env_ok db0) /\
  stdout env_later (database_after env_ok db0) = stdout env_ok db0.
Proof.
  destruct (second_run_leaves_cases_alone env_ok env_later db0 eq_refl)
    as [Hcases Hout].
  split; [reflexivity | ].
  split; [reflexivity | ].
  split; [exact Hcases | exact (Hout eq_refl)].
Defined.

(** X9: running again after a run that stopped.  When the first run did
    not print 'Activity logged for case 42', a second run that succeeds
    leaves exactly what one successful run on the original database
    leaves.  When the first run did print it (it failed, if at all, in
    [cur.close()] or [conn.close()]), a second successful run leaves two
    log rows. *)
Theorem running_again_after_a_stop env1 env2 d :
  succeeded env2 (database_after env1 d) ->
  (~ In (lit "Activity logged for case 42") (stdout env1 d) ->
   database_after env2 (database_after env1 d) = transaction env2 d) /\
  (In (lit "Activity logged for case 42") (stdout env1 d) ->
   activity_log (database_after env2 (database_after env1 d)) =
     activity_log d ++ [logged_row env1; logged_row env2]).
Proof.
  intros H2.
  destruct (activity_line_and_commit env1 d) as [Hyes Hno].
  rewrite (succeeded_database_after _ _ H2).
  split; intros Hin.
  - rewrite (Hno Hin). reflexivity.
  - rewrite (Hyes Hin). cbn. rewrite <- app_assoc. reflexivity.
Qed.

Lemma running_again_after_a_stop_witness :
  succeeded env_ok (database_after env_insert_fails db0) /\
  database_after env_ok (database_after env_insert_fails db0) =
    transaction env_ok db0 /\
  succeeded env_later (database_after env_cursor_close_fails db0) /\
  activity_log (database_after env_later
                  (database_after env_cursor_close_fails db0)) =
    [logged_row env_cursor_close_fails; logged_row env_later].
Proof.
  assert (Hok1 : succeeded env_ok (database_after env_insert_fails db0))
    by (vm_compute; reflexivity).
  assert (Hok2 : succeeded env_later (database_after env_cursor_close_fails db0))
    by (vm_compute; reflexivity).
  assert (Hnot : ~ In (lit "Activity logged for case 42")
                      (stdout env_insert_fails db0)).
  { intros Hin. vm_compute in Hin.
    destruct Hin as [Hin | [Hin | []]]; discriminate Hin. }
  assert (Hin : In (lit "Activity logged for case 42")
                   (stdout env_cursor_close_fails db0))
    by (vm_compute; tauto).
  destruct (running_again_after_a_stop env_insert_fails env_ok db0 Hok1)
    as [Hsame _].
  destruct (running_again_after_a_stop env_cursor_close_fails env_later db0
              Hok2) as [_ Htwice].
  split; [exact Hok1 | ].
  split; [exact (Hsame Hnot) | ].
  split; [exact Hok2 | exact (Htwice Hin)].
Defined.

(** ** Which error is reported *)

(** X10: with DATABASE_URL set, a driver call that was made and raises
    is the last call of the run: the [try] block ends there with the
    driver's exception, and the last line printed is 'Error: ' followed
    by the driver's message, unchanged. *)
Theorem run_stops_at_the_call_that_raises env d c msg :
  (exists dsn, DATABASE_URL env = Some dsn) ->
  In (Called c) (events env d) ->
  fault env c = Some msg ->
  failure env d = Some (DatabaseError msg) /\
  last (calls (events env d)) Connect = c /\
  last (stdout env d) [] = lit "Error: " ++ msg.
Proof.
  paths env d; intros [dsn Hurl] Hin Hf;
    try discriminate Hurl;
    destruct c;
    try (exfalso; revert Hin; not_in_list);
    try congruence;
    (split; [congruence | split; [reflexivity | cbn; congruence]]).
Qed.

Lemma run_stops_at_the_call_that_raises_witness :
  DATABASE_URL env_commit_fails =
    Some (lit "postgresql://autobot@db/autobot") /\
  In (Called Commit) (events env_commit_fails db0) /\
  failure env_commit_fails db0 =
    Some (DatabaseError (lit "server closed the connection unexpectedly")) /\
  last (stdout env_commit_fails db0) [] =
    lit "Error: server closed the connection unexpectedly".
Proof.
  assert (Hin : In (Called Commit) (events env_commit_fails db0))
    by (vm_compute; tauto).
  destruct (run_stops_at_the_call_that_raises env_commit_fails db0 Commit
              (lit "server closed the connection unexpectedly")
              (ex_intro _ _ eq_refl) Hin eq_refl) as [Hfail [_ Hout]].
  split; [reflexivity | ].
  split; [exact Hin | ].
  split; [exact Hfail | exact Hout].
Defined.
